(** * TimeLoggingIterator: an iterator wrapper that logs the time taken per item

    Shallow embedding of
    [cellxgene_census/experimental/util/_time_logging_iter.py]
    and the properties of its specification.

    The Python objects involved are named by references: the wrapper
    instance, the upstream iterator it holds and the logger it holds; the
    wrappers and the upstream iterators live in stores, so that a call
    mutates the object and leaves the reference alone.  The effects of
    [__next__] (reading the clock, advancing the upstream iterator, calling
    [logger.warning], assigning [item_number]) are threaded through a state
    and exception monad, and every effect that is visible from outside is
    appended to a trace, in program order. *)

From Stdlib Require Import ZArith QArith Qround Qabs String DecimalString List Lia.
From stdpp Require Import base list gmap strings.

Local Open Scope string_scope.

(** ** Python values and exceptions *)

(** References to objects in the store. *)
Definition loc := positive.

(** What a call may raise: [StopIteration], the [TypeError] of a call that
    does not fit the signature, or any other exception, of which [E] is the
    type. *)
Inductive exn (E : Type) : Type :=
| StopIteration
| TypeError
| OtherError (e : E).
Arguments StopIteration {E}.
Arguments TypeError {E}.
Arguments OtherError {E} e.

(** A call returns a value or raises. *)
Inductive result (E A : Type) : Type :=
| Return (a : A)
| Raise (x : exn E).
Arguments Return {E A} a.
Arguments Raise {E A} x.

(** [typing.Iterator[T]]: an object with state whose [__next__] returns the
    next element or raises; [U] is the type of the object's state. *)
Class Iterator (U T E : Type) := iterator_next : U → result E T * U.
Arguments iterator_next {U T E _} s.

(** Severities of the [logging] module. *)
Inductive level := DEBUG | INFO | WARNING | ERROR | CRITICAL.

(** ** Floats

    A timestamp is a double, modelled by the rational it is.  The result of
    [round(x, 3)] is the double nearest to a decimal with three places; it is
    kept as its sign and its number of thousandths, the sign apart because
    Python rounds a small negative number to [-0.0]. *)
Record float3 := Float3 { negative : bool; thousandths : N }.

Definition float3_value (d : float3) : Q :=
  ((if negative d then -1 else 1) * (Z.of_N (thousandths d) # 1000))%Q.

(** Nearest integer, a tie going to the even neighbour. *)
Definition round_half_even (x : Q) : Z :=
  let f := Qfloor x in
  match ((x - inject_Z f) ?= (1 # 2))%Q with
  | Lt => f
  | Gt => (f + 1)%Z
  | Eq => if Z.even f then f else (f + 1)%Z
  end.

(** [floor(log2(x))] of a positive rational. *)
Definition floor_log2 (x : Q) : Z :=
  let e := (Z.log2 (Qnum x) - Z.log2 (Z.pos (Qden x)))%Z in
  if Qle_bool (2 ^ e) x then e else (e - 1)%Z.

(** The double nearest to [x], a tie going to the even significand: 53 bits
    of significand at the exponent of [x], which is not below -1022.  (No
    overflow: [x] is below 2^1024 in size.) *)
Definition round_to_double (x : Q) : Q :=
  if Qeq_bool x 0 then 0%Q
  else
    let e := Z.max (floor_log2 (Qabs x)) (-1022) in
    let ulp := (2 ^ (e - 52))%Q in
    (inject_Z (round_half_even (x / ulp)) * ulp)%Q.

(** [a - b] on floats: the exact difference, rounded to a double. *)
Definition float_sub (a b : Q) : Q := round_to_double (a - b).

(** [round(x, 3)] *)
Definition round3 (x : Q) : float3 :=
  {| negative := negb (Qle_bool 0 x);
     thousandths := Z.to_N (round_half_even (Qabs x * 1000)) |}.

(** [str(n)] of a non-negative [int]. *)
Definition str_N (n : N) : string := NilZero.string_of_uint (N.to_uint n).

(** [repr] of the float, as an f-string interpolates it: the shortest decimal
    that reads back as the same float, with at least one digit after the
    point.  For the double nearest to a number of thousandths this is that
    number written out, as long as it is below 2^43 or so; from there on
    doubles are further apart than thousandths and Python prints fewer
    digits, and from 1e16 on exponent notation, which this function does
    not follow. *)
Definition repr_float3 (d : float3) : string :=
  let ip := (thousandths d / 1000)%N in
  let fp := (thousandths d mod 1000)%N in
  let d1 := (fp / 100)%N in
  let d2 := ((fp / 10) mod 10)%N in
  let d3 := (fp mod 10)%N in
  (if negative d then "-" else "") ++ str_N ip ++ "." ++ str_N d1 ++
  (if (d2 =? 0)%N && (d3 =? 0)%N then ""
   else str_N d2 ++ (if (d3 =? 0)%N then "" else str_N d3)).

(** ** The wrapper object *)

(** The attributes [__init__] assigns. *)
Record TimeLoggingIterator := mkTimeLoggingIterator {
  iterator : loc;
  name : string;
  logger : loc;
  item_number : nat;
}.

Definition set_item_number (n : nat) (o : TimeLoggingIterator) : TimeLoggingIterator :=
  {| iterator := iterator o; name := name o; logger := logger o; item_number := n |}.

(** The message of line 30:
    [f"{self.name} iterator: {elapsed_time}s for item #{self.item_number}"] *)
Definition message (name : string) (elapsed_time : float3) (item_number : nat) : string :=
  name ++ " iterator: " ++ repr_float3 elapsed_time ++ "s for item #"
       ++ str_N (N.of_nat item_number).

(** ** The world the program runs in *)

Local Open Scope list_scope.

(** The effects visible from outside, in program order. *)
Inductive event (T E : Type) : Type :=
| EvTime (t : Q)                        (* [time.time()] returned [t] *)
| EvNext (it : loc) (r : result E T)    (* [next(it)] returned or raised [r] *)
| EvLog (lg : loc) (lv : level) (msg : string).
                                        (* logger [lg] was handed [msg] at [lv] *)
Arguments EvTime {T E} t.
Arguments EvNext {T E} it r.
Arguments EvLog {T E} lg lv msg.

(** [clock k] is what the [k]-th call of [time.time()] returns;
    [iterators] holds the upstream iterator objects, [objects] the
    [TimeLoggingIterator] instances. *)
Record World (U T E : Type) := mkWorld {
  clock : nat → Q;
  clock_reads : nat;
  iterators : gmap loc U;
  objects : gmap loc TimeLoggingIterator;
  trace : list (event T E);
}.
Arguments mkWorld {U T E} _ _ _ _ _.
Arguments clock {U T E} _ _.
Arguments clock_reads {U T E} _.
Arguments iterators {U T E} _.
Arguments objects {U T E} _.
Arguments trace {U T E} _.

(** ** A state and exception monad

    A computation takes the world and returns a value or raises, with the
    world it leaves.  [None] is a dangling reference, which Python cannot
    produce: the model is stuck. *)
Definition M (W E A : Type) : Type := W → option (result E A * W).

#[global] Instance M_ret {W E} : MRet (M W E) := λ A a w, Some (Return a, w).

#[global] Instance M_bind {W E} : MBind (M W E) := λ A B f m w,
  match m w with
  | Some (Return a, w') => f a w'
  | Some (Raise x, w') => Some (Raise x, w')
  | None => None
  end.

Definition raise {W E A} (x : exn E) : M W E A := λ w, Some (Raise x, w).

(** [try: body / except StopIteration: handler / else: orelse].  Any other
    exception of the body is not caught. *)
Definition try_except_StopIteration_else {W E A B}
    (body : M W E A) (handler : M W E B) (orelse : A → M W E B) : M W E B :=
  λ w, match body w with
       | Some (Return a, w') => orelse a w'
       | Some (Raise StopIteration, w') => handler w'
       | Some (Raise x, w') => Some (Raise x, w')
       | None => None
       end.

(** ** Construction as Python runs it

    Python does not check the arguments of a call against the annotations
    of the parameters: [__init__] is run on whatever values it is given, and
    an assignment [self.attr = v] puts [v] under [attr] in the instance
    dictionary of [self]. *)

(** A value that a call may pass: [None], a string, an integer, or a
    reference to an object. *)
Inductive pyvalue :=
| PyNone
| PyStr (s : string)
| PyInt (n : Z)
| PyRef (l : loc).

(** [self.attr = v] *)
Definition setattr {E} (attr : string) (v : pyvalue) : M (gmap string pyvalue) E unit :=
  λ d, Some (Return (), <[attr := v]> d).

(** [__init__(self, logger, iterator, name)], lines 11-15, on any values;
    the state is the instance dictionary of [self]. *)
Definition __init___untyped {E} (logger iterator name : pyvalue)
    : M (gmap string pyvalue) E unit :=
  setattr "iterator" iterator;;
  setattr "name" name;;
  setattr "logger" logger;;
  setattr "item_number" (PyInt 0).

(** The instance dictionary read at the types of the annotations: a
    reference for the iterator ([Iterator[T]]) and for the logger
    ([logging.Logger]), a string for the name ([str]). *)
Definition as_TimeLoggingIterator (d : gmap string pyvalue) : option TimeLoggingIterator :=
  match d !! "iterator", d !! "name", d !! "logger", d !! "item_number" with
  | Some (PyRef it), Some (PyStr nm), Some (PyRef lg), Some (PyInt n) =>
      if (0 <=? n)%Z then Some (mkTimeLoggingIterator it nm lg (Z.to_nat n)) else None
  | _, _, _, _ => None
  end.

Section Program.
Context {U T E : Type} `{!Iterator U T E}.

Local Abbreviation World := (World U T E).
Local Abbreviation M := (M World E).

(** *** Primitive effects *)

Definition emit (ev : event T E) (w : World) : World :=
  mkWorld (clock w) (clock_reads w) (iterators w) (objects w) (trace w ++ [ev]).

(** [time.time()] *)
Definition time_time : M Q := λ w,
  let t := clock w (clock_reads w) in
  Some (Return t,
        emit (EvTime t)
             (mkWorld (clock w) (S (clock_reads w)) (iterators w) (objects w) (trace w))).

(** [next(it)] on an upstream iterator *)
Definition next (it : loc) : M T := λ w,
  match iterators w !! it with
  | Some s =>
      let '(r, s') := iterator_next s in
      Some (r,
            emit (EvNext it r)
                 (mkWorld (clock w) (clock_reads w) (<[it := s']> (iterators w))
                          (objects w) (trace w)))
  | None => None
  end.

(** Reading the attributes of [self] *)
Definition getattr (self : loc) : M TimeLoggingIterator := λ w,
  match objects w !! self with
  | Some o => Some (Return o, w)
  | None => None
  end.

(** [self.item_number = n] *)
Definition setattr_item_number (self : loc) (n : nat) : M unit := λ w,
  match objects w !! self with
  | Some o =>
      Some (Return (),
            mkWorld (clock w) (clock_reads w) (iterators w)
                    (<[self := set_item_number n o]> (objects w)) (trace w))
  | None => None
  end.

(** [lg.warning(msg)]: the logger is handed [msg] at severity WARNING.
    What it does with it (its level, its handlers) is not the wrapper's. *)
Definition Logger_warning (lg : loc) (msg : string) : M unit := λ w,
  Some (Return (), emit (EvLog lg WARNING msg) w).

(** *** The class *)

(** [__init__(self, logger, iterator, name)], lines 11-15 *)
Definition __init__ (self : loc) (logger iterator : loc) (name : string) : M unit := λ w,
  Some (Return (),
        mkWorld (clock w) (clock_reads w) (iterators w)
                (<[self := mkTimeLoggingIterator iterator name logger 0]> (objects w))
                (trace w)).

(** [__iter__(self)], lines 17-18 *)
Definition __iter__ (self : loc) : M loc := mret self.

(** [__next__(self)], lines 20-31 *)
Definition __next__ (self : loc) : M T :=
  start_time ← time_time;
  try_except_StopIteration_else
    (o ← getattr self; next (iterator o))
    (raise StopIteration)
    (λ value,
       end_time ← time_time;
       let elapsed_time := round3 (float_sub end_time start_time) in
       o ← getattr self;
       setattr_item_number self (item_number o + 1);;
       o ← getattr self;
       Logger_warning (logger o) (message (name o) elapsed_time (item_number o));;
       mret value).

(** The reference of the object that a call [TimeLoggingIterator(...)]
    allocates in [w]: one not in use. *)
Definition new_object (w : World) : loc := fresh (dom (objects w)).

(** The call [TimeLoggingIterator(...)]: the arguments are bound to the
    parameters [logger], [iterator], [name] of [__init__].  None of them has
    a default, so a call that leaves one out raises [TypeError] and
    [__init__] does not run; otherwise a new object is allocated and
    initialised.  [None] is an argument that the call does not supply;
    Python's [None] is a value like any other and is not checked for, see
    [__init___untyped]. *)
Definition TimeLoggingIterator_new
    (logger iterator : option loc) (name : option string) : M loc :=
  match logger, iterator, name with
  | Some lg, Some it, Some nm =>
      λ w, let self := new_object w in
           (__init__ self lg it nm;; mret self) w
  | _, _, _ => raise TypeError
  end.

(** *** Consumers *)

(** The loop of a [for] statement over the iterator [it], whose [__next__]
    is [nxt]: elements are taken until a call raises.  It returns the
    elements received and the exception that ended it ([StopIteration] ends
    the statement normally, any other propagates from it). *)
Fixpoint consume (nxt : loc → M T) (fuel : nat) (it : loc) (w : World)
    : option (list T * exn E * World) :=
  match fuel with
  | O => None
  | S fuel' =>
      match nxt it w with
      | Some (Return v, w') =>
          match consume nxt fuel' it w' with
          | Some (vs, x, w'') => Some (v :: vs, x, w'')
          | None => None
          end
      | Some (Raise x, w') => Some ([], x, w')
      | None => None
      end
  end.

(** [for x in self: ...] over a wrapper: [iter(self)], then the loop. *)
Definition drain (fuel : nat) (self : loc) (w : World)
    : option (list T * exn E * World) :=
  match __iter__ self w with
  | Some (Return it, w') => consume __next__ fuel it w'
  | _ => None
  end.

(** The same loop over the upstream iterator itself. *)
Definition drain_upstream (fuel : nat) (it : loc) (w : World)
    : option (list T * exn E * World) :=
  consume next fuel it w.

(** [k] calls of [__next__], whatever each returns or raises. *)
Fixpoint calls (k : nat) (self : loc) (w : World)
    : option (list (result E T) * World) :=
  match k with
  | O => Some ([], w)
  | S k' =>
      match __next__ self w with
      | Some (r, w') =>
          match calls k' self w' with
          | Some (rs, w'') => Some (r :: rs, w'')
          | None => None
          end
      | None => None
      end
  end.

(** *** Observations *)

(** The messages handed to loggers, with their severities, in order. *)
Definition log_records (tr : list (event T E)) : list (loc * level * string) :=
  omap (λ ev, match ev with EvLog lg lv msg => Some (lg, lv, msg) | _ => None end) tr.

(** The requests made to upstream iterators, in order. *)
Definition requests (tr : list (event T E)) : list (loc * result E T) :=
  omap (λ ev, match ev with EvNext it r => Some (it, r) | _ => None end) tr.

Definition is_Return {A} (r : result E A) : bool :=
  match r with Return _ => true | Raise _ => false end.

(** *** Upstream behaviours *)

(** [yields s l s']: from state [s] the upstream iterator returns the
    elements of [l], one per call, and is then in state [s']. *)
Inductive yields : U → list T → U → Prop :=
| yields_nil s : yields s [] s
| yields_cons s v s1 l s' :
    iterator_next s = (Return v, s1) → yields s1 l s' → yields s (v :: l) s'.

(** The wrapper [self] is in the store with attributes [o], and the
    upstream iterator it refers to is in the store in state [s]. *)
Definition wrapper_at (w : World) (self : loc) (o : TimeLoggingIterator) (s : U) : Prop :=
  objects w !! self = Some o ∧ iterators w !! iterator o = Some s.

(** *** What a call leaves behind

    The worlds and events the theorems below compare the program with. *)

(** The world that [TimeLoggingIterator(lg, it, nm)] leaves. *)
Definition world_after_new (w : World) (lg it : loc) (nm : string) : World :=
  mkWorld (clock w) (clock_reads w) (iterators w)
          (<[new_object w := mkTimeLoggingIterator it nm lg 0]> (objects w))
          (trace w).

(** A call of [__next__] in which the upstream iterator raised [x] and
    went to state [s']. *)
Definition world_after_raise (w : World) (o : TimeLoggingIterator) (s' : U) (x : exn E)
    : World :=
  mkWorld (clock w) (S (clock_reads w))
          (<[iterator o := s']> (iterators w)) (objects w)
          (trace w ++ [EvTime (clock w (clock_reads w));
                       EvNext (iterator o) (Raise x)]).

(** The time that the call number [j] from [w] on (counting from 0)
    measures, when the calls before it all returned an element: each of
    them read the clock twice. *)
Definition elapsed (w : World) (j : nat) : float3 :=
  round3 (float_sub (clock w (clock_reads w + 2 * j + 1))
                    (clock w (clock_reads w + 2 * j))).

(** The record of that call. *)
Definition item_record (w : World) (o : TimeLoggingIterator) (j : nat)
    : loc * level * string :=
  (logger o, WARNING, message (name o) (elapsed w j) (item_number o + j + 1)).

(** The events of that call, when it returns [v]. *)
Definition item_events (w : World) (o : TimeLoggingIterator) (j : nat) (v : T)
    : list (event T E) :=
  [EvTime (clock w (clock_reads w + 2 * j));
   EvNext (iterator o) (Return v);
   EvTime (clock w (clock_reads w + 2 * j + 1));
   EvLog (logger o) WARNING (message (name o) (elapsed w j) (item_number o + j + 1))].

Definition run_events (w : World) (o : TimeLoggingIterator) (l : list T)
    : list (event T E) :=
  concat (imap (item_events w o) l).

(** The world after the calls that returned the elements of [l], the
    upstream iterator being left in state [s']. *)
Definition world_after_items (w : World) (self : loc) (o : TimeLoggingIterator)
    (l : list T) (s' : U) : World :=
  mkWorld (clock w) (clock_reads w + 2 * length l)
          (<[iterator o := s']> (iterators w))
          (<[self := set_item_number (item_number o + length l) o]> (objects w))
          (trace w ++ run_events w o l).

End Program.

(** ** Upstream iterators given by a script

    The outcomes of the successive calls of [next]; once the script is
    used up every call raises [StopIteration].  [of_list l] is [iter(l)]. *)
#[global] Instance script_iterator {T E} : Iterator (list (result E T)) T E := λ s,
  match s with
  | [] => (Raise StopIteration, [])
  | r :: s' => (r, s')
  end.

Definition of_list {T E} (l : list T) : list (result E T) := map Return l.

(** ** Concrete worlds

    Elements are strings, and so are the exceptions other than
    [StopIteration] and [TypeError]. *)

Definition demo_source : list (result string string) := of_list ["a"; "b"; "c"].

(** Before the wrapper is constructed: [iter(["a", "b", "c"])] is object 1 of
    the iterators, and every reading of the clock is 0.0 (no retrieval
    delay). *)
Definition demo_world : World (list (result string string)) string string :=
  mkWorld (λ _, 0%Q) 0 {[ 1%positive := demo_source ]} ∅ [].

(** A wrapper named "demo" over that iterator, logging to logger 2, as
    [__init__] leaves it; it is object 5. *)
Definition demo_wrapper : TimeLoggingIterator :=
  mkTimeLoggingIterator 1%positive "demo" 2%positive 0.

Definition demo_wrapped : World (list (result string string)) string string :=
  mkWorld (λ _, 0%Q) 0 {[ 1%positive := demo_source ]} {[ 5%positive := demo_wrapper ]} [].

(** An exhausted iterator, [iter([])], before and after a wrapper is
    constructed over it. *)
Definition exhausted_world : World (list (result string string)) string string :=
  mkWorld (λ _, 0%Q) 0 {[ 1%positive := [] ]} ∅ [].

Definition exhausted_wrapped : World (list (result string string)) string string :=
  mkWorld (λ _, 0%Q) 0 {[ 1%positive := [] ]} {[ 5%positive := demo_wrapper ]} [].

(** The same, over a source that raises [ValueError] at its third call. *)
Definition failing_source : list (result string string) :=
  [Return "a"; Return "b"; Raise (OtherError "ValueError"); Return "c"].

Definition failing_wrapped : World (list (result string string)) string string :=
  mkWorld (λ _, 0%Q) 0 {[ 1%positive := failing_source ]} {[ 5%positive := demo_wrapper ]} [].

Definition failing_world : World (list (result string string)) string string :=
  mkWorld (λ _, 0%Q) 0 {[ 1%positive := failing_source ]} ∅ [].

(** The same, over a source that is exhausted after "a" and later yields
    "b" and "c". *)
Definition resuming_source : list (result string string) :=
  [Return "a"; Raise StopIteration; Return "b"; Return "c"].

Definition resuming_wrapped : World (list (result string string)) string string :=
  mkWorld (λ _, 0%Q) 0 {[ 1%positive := resuming_source ]} {[ 5%positive := demo_wrapper ]} [].

(** The same as [demo_wrapped], with a clock that is set back between its
    first reading, 5.0, and the later ones, 3.0. *)
Definition set_back_wrapped : World (list (result string string)) string string :=
  mkWorld (λ k, match k with O => 5%Q | _ => 3%Q end) 0
          {[ 1%positive := demo_source ]} {[ 5%positive := demo_wrapper ]} [].

(** ** More upstream iterators and worlds *)

(** [itertools.count(n)]: an iterator that never raises. *)
#[global] Instance count_iterator {E} : Iterator nat nat E := λ n, (Return n, S n).

(** A wrapper, object 5, over [itertools.count(7)]. *)
Definition counting_wrapped : World nat nat string :=
  mkWorld (λ _, 0%Q) 0 {[ 1%positive := 7 ]} {[ 5%positive := demo_wrapper ]} [].

(** Two wrappers, objects 5 and 6, over the same [iter(["a", "b", "c"])]; the
    second is named "other", logs to logger 3 and has yielded 10 elements
    before. *)
Definition other_wrapper : TimeLoggingIterator :=
  mkTimeLoggingIterator 1%positive "other" 3%positive 10.

Definition shared_wrapped : World (list (result string string)) string string :=
  mkWorld (λ _, 0%Q) 0 {[ 1%positive := demo_source ]}
          {[ 5%positive := demo_wrapper; 6%positive := other_wrapper ]} [].

(** The same as [demo_wrapped] over a source that yields other elements, as
    many. *)
Definition secret_wrapped : World (list (result string string)) string string :=
  mkWorld (λ _, 0%Q) 0 {[ 1%positive := of_list ["x"; "y"; "z"] ]}
          {[ 5%positive := demo_wrapper ]} [].

(** * The training script [tools/scripts/scvi/scvi-train.py]

    The script is a straight line of look-ups in the configuration that
    [yaml.safe_load] returned and of calls into libraries (Census, SOMA,
    scvi-tools, torch).  What the libraries compute is not the script's: the
    model keeps the look-ups, which raise as Python's do, and records every
    library call in order, with the configuration values it is given.  The
    library calls are taken to return. *)

(** A value loaded from YAML: a mapping with string keys, or anything else
    (a string, a number, a list, [None]), of which only its text is kept. *)
#[warnings="-register-all"]
Inductive yaml :=
| YOther (text : string)
| YMap (m : gmap string yaml).

(** What the script itself can raise, besides [TypeError]. *)
Inductive script_error := KeyError (key : string).

(** The library calls and assignments of the script, with the lines they are
    on.  The objects passed from one to the next ([census], [query],
    [hvgs_df], [ad], [model]) are those of the lines named. *)
Inductive library_call :=
| Call_safe_load (file : string)                                (* 11-12 *)
| Call_open_soma                                                (* 14 *)
| Call_axis_query (experiment_name obs_value_filter : yaml)
                  (var_query_hv_idx : bool)                     (* 20-22, 34-38 *)
| Call_highly_variable_genes (n_top_genes batch_key : yaml)     (* 29 *)
| Select_highly_variable                                        (* 31-32 *)
| Call_to_anndata (X_name : string)                             (* 39 *)
| Set_obs_batch                                                 (* 41 *)
| Set_seed (seed : Z)                                           (* 44 *)
| Call_print                                                    (* 45 *)
| Call_setup_anndata (batch_key : string)                       (* 47 *)
| Call_SCVI (n_layers n_latent : yaml) (gene_likelihood : string)  (* 55 *)
| Set_dl_num_workers (num_workers : yaml)                       (* 68 *)
| Call_train (max_epochs batch_size train_size early_stopping
              plan_kwargs trainer_kwargs : yaml)
             (strategy : string) (devices : yaml)               (* 70-79 *)
| Call_torch_save (path : string).                              (* 81 *)

(** [v[key]] for a string [key]: the value under [key] of a mapping,
    [KeyError] when the mapping has no such key, [TypeError] when [v] is
    not a mapping. *)
Definition getitem {W} (v : yaml) (key : string) : M W script_error yaml :=
  match v with
  | YMap m =>
      match m !! key with
      | Some x => mret x
      | None => raise (OtherError (KeyError key))
      end
  | YOther _ => raise TypeError
  end.

Definition call (c : library_call) : M (list library_call) script_error unit :=
  λ tr, Some (Return (), tr ++ [c]).

(** The script, run on the configuration that [yaml.safe_load] returns. *)
Definition scvi_train (config : yaml) : M (list library_call) script_error unit :=
  let file := "scvi-config.yaml" in
  call (Call_safe_load file);;
  call Call_open_soma;;
  census_config ← getitem config "census";
  experiment_name ← getitem census_config "organism";
  obs_value_filter ← getitem census_config "obs_query";
  call (Call_axis_query experiment_name obs_value_filter false);;
  hvg_config ← getitem config "hvg";
  top_n_hvg ← getitem hvg_config "top_n_hvg";
  hvg_batch ← getitem hvg_config "hvg_batch";
  min_genes ← getitem hvg_config "min_genes";
  call (Call_highly_variable_genes top_n_hvg hvg_batch);;
  call Select_highly_variable;;
  call (Call_axis_query experiment_name obs_value_filter true);;
  call (Call_to_anndata "raw");;
  call Set_obs_batch;;
  call (Set_seed 0);;
  call Call_print;;
  call (Call_setup_anndata "batch");;
  model_config ← getitem config "model";
  n_hidden ← getitem model_config "n_hidden";
  n_latent ← getitem model_config "n_latent";
  n_layers ← getitem model_config "n_layers";
  dropout_rate ← getitem model_config "dropout_rate";
  call (Call_SCVI n_layers n_latent "nb");;
  train_config ← getitem config "train";
  max_epochs ← getitem train_config "max_epochs";
  batch_size ← getitem train_config "batch_size";
  train_size ← getitem train_config "train_size";
  early_stopping ← getitem train_config "early_stopping";
  devices ← getitem train_config "devices";
  trainer_config ← getitem train_config "trainer";
  training_plan_config ← getitem config "training_plan";
  num_workers ← getitem train_config "num_workers";
  call (Set_dl_num_workers num_workers);;
  call (Call_train max_epochs batch_size train_size early_stopping
                   training_plan_config trainer_config
                   "ddp_find_unused_parameters_true" devices);;
  call (Call_torch_save "scvi.model").

(** *** Configurations *)

(** The value of [key] in the section [section] of a configuration. *)
Definition setting (config : yaml) (section key : string) : option yaml :=
  match config with
  | YMap m =>
      match m !! section with
      | Some (YMap sec) => sec !! key
      | _ => None
      end
  | YOther _ => None
  end.

(** The configuration with [v] for [key] in [section], when [section] is a
    mapping of it. *)
Definition with_setting (config : yaml) (section key : string) (v : yaml) : yaml :=
  match config with
  | YMap m =>
      match m !! section with
      | Some (YMap sec) => YMap (<[section := YMap (<[key := v]> sec)]> m)
      | _ => config
      end
  | YOther _ => config
  end.

(** The settings that the script reads. *)
Definition settings_read : list (string * string) :=
  [("census", "organism"); ("census", "obs_query");
   ("hvg", "top_n_hvg"); ("hvg", "hvg_batch"); ("hvg", "min_genes");
   ("model", "n_hidden"); ("model", "n_latent"); ("model", "n_layers");
   ("model", "dropout_rate");
   ("train", "max_epochs"); ("train", "batch_size"); ("train", "train_size");
   ("train", "early_stopping"); ("train", "devices"); ("train", "trainer");
   ("train", "num_workers")].

Definition complete (config : yaml) : Prop :=
  Forall (λ sk, is_Some (setting config sk.1 sk.2)) settings_read ∧
  (∃ m, config = YMap m ∧ is_Some (m !! "training_plan")).

(** The settings that the script reads and passes to nothing. *)
Definition settings_unused : list (string * string) :=
  [("hvg", "min_genes"); ("model", "n_hidden"); ("model", "dropout_rate")].

(** The calls of a run that has got past the configuration. *)
Definition is_training (c : library_call) : bool :=
  match c with
  | Call_train _ _ _ _ _ _ _ _ | Call_torch_save _ => true
  | _ => false
  end.

(** A configuration with every setting, and the same without
    [dropout_rate]. *)
Definition example_section (keys : list string) : yaml :=
  YMap (list_to_map (map (λ k, (k, YOther k)) keys)).

Definition example_config : yaml :=
  YMap (list_to_map
    [("census", example_section ["organism"; "obs_query"]);
     ("hvg", example_section ["top_n_hvg"; "hvg_batch"; "min_genes"]);
     ("model", example_section ["n_hidden"; "n_latent"; "n_layers"; "dropout_rate"]);
     ("train", example_section ["max_epochs"; "batch_size"; "train_size";
                                "early_stopping"; "devices"; "trainer"; "num_workers"]);
     ("training_plan", YOther "{}")]).

Definition example_config_short : yaml :=
  YMap (list_to_map
    [("census", example_section ["organism"; "obs_query"]);
     ("hvg", example_section ["top_n_hvg"; "hvg_batch"; "min_genes"]);
     ("model", example_section ["n_hidden"; "n_latent"; "n_layers"]);
     ("train", example_section ["max_epochs"; "batch_size"; "train_size";
                                "early_stopping"; "devices"; "trainer"; "num_workers"]);
     ("training_plan", YOther "{}")]).

(** * Proofs *)

(** ** Floats *)

(** The subtraction rounds as doubles do: the doubles nearest to 0.187500001
    and to 1e-9 differ by a little less than 0.1875, and their difference
    as doubles is 0.1875, which [round(x, 3)] takes to 0.188 and not to
    0.187. *)
Example float_sub_rounds_to_double :
  let a := (6755399477084541 # 36028797018963968)%Q in
  let b := (4835703278458517 # 4835703278458516698824704)%Q in
  (a - b < 3 # 16)%Q ∧
  (float_sub a b == 3 # 16)%Q ∧
  repr_float3 (round3 (float_sub a b)) = "0.188".
Proof. vm_compute. repeat split. Qed.

(** ** Single calls *)

Section Steps.
Context {U T E : Type} `{!Iterator U T E}.

Local Abbreviation World := (World U T E).

Implicit Types (w : World) (self it lg : loc) (o : TimeLoggingIterator)
               (s : U) (v : T) (x : exn E) (l : list T).

Lemma set_item_number_same o : set_item_number (item_number o) o = o.
Proof. by destruct o. Qed.

Lemma set_item_number_twice n m o :
  set_item_number n (set_item_number m o) = set_item_number n o.
Proof. done. Qed.

(** The two ways a call of [__next__] can go, with the world it leaves. *)
Lemma next_return w self o s v s' :
  wrapper_at w self o s →
  iterator_next s = (Return v, s') →
  __next__ self w = Some (Return v, world_after_items w self o [v] s').
Proof.
  intros [Hself Hit] Hstep.
  unfold __next__, mbind, M_bind, time_time, try_except_StopIteration_else,
    getattr, next, setattr_item_number, Logger_warning, emit; simpl.
  rewrite Hself; simpl. rewrite Hit, Hstep; simpl.
  rewrite Hself; simpl. rewrite Hself; simpl. rewrite lookup_insert_eq; simpl.
  unfold mret, M_ret, world_after_items, run_events, item_events, elapsed; simpl.
  rewrite !Nat.add_0_r, <- !app_assoc; simpl.
  replace (clock_reads w + 2) with (S (S (clock_reads w))) by lia.
  replace (clock_reads w + 1) with (S (clock_reads w)) by lia.
  done.
Qed.

Lemma next_raise w self o s x s' :
  wrapper_at w self o s →
  iterator_next s = (Raise x, s') →
  __next__ self w = Some (Raise x, world_after_raise w o s' x).
Proof.
  intros [Hself Hit] Hstep.
  unfold __next__, mbind, M_bind, time_time, try_except_StopIteration_else,
    getattr, next, raise, emit; simpl.
  rewrite Hself; simpl. rewrite Hit, Hstep; simpl.
  unfold world_after_raise. rewrite <- app_assoc; simpl.
  by destruct x.
Qed.

(** ** Runs of successful calls *)

Lemma world_after_items_nil w self o s :
  wrapper_at w self o s → world_after_items w self o [] s = w.
Proof.
  intros [Hself Hit]. destruct w as [clk n its objs tr]; simpl in *.
  unfold world_after_items, run_events; simpl.
  rewrite !Nat.add_0_r, set_item_number_same, app_nil_r.
  by rewrite !insert_id.
Qed.

Lemma wrapper_at_after_items w self o l s' :
  wrapper_at (world_after_items w self o l s') self
             (set_item_number (item_number o + length l) o) s'.
Proof. split; simpl; apply lookup_insert_eq. Qed.

Lemma item_events_shift w self o v0 s1 j v :
  item_events (world_after_items w self o [v0] s1)
              (set_item_number (item_number o + 1) o) j v
  = item_events w o (S j) v.
Proof.
  unfold item_events, elapsed; simpl.
  replace (clock_reads w + 2 + (j + (j + 0))) with (clock_reads w + S (j + S (j + 0))) by lia.
  replace (item_number o + 1 + j + 1) with (item_number o + S j + 1) by lia.
  done.
Qed.

Lemma world_after_items_cons w self o v s1 l s' :
  world_after_items (world_after_items w self o [v] s1) self
                    (set_item_number (item_number o + 1) o) l s'
  = world_after_items w self o (v :: l) s'.
Proof.
  unfold world_after_items at 1. simpl.
  unfold world_after_items at 2. f_equal.
  - simpl. lia.
  - apply insert_insert_eq.
  - rewrite insert_insert_eq. f_equal.
    unfold set_item_number; simpl. f_equal. lia.
  - rewrite <- app_assoc. f_equal. unfold run_events. simpl.
    do 5 f_equal.
    apply imap_ext. intros j y _. apply item_events_shift.
Qed.

Lemma calls_yields w self o s l s' :
  wrapper_at w self o s →
  yields s l s' →
  calls (length l) self w = Some (map Return l, world_after_items w self o l s').
Proof.
  intros Hw Hy. revert w o Hw.
  induction Hy as [s | s v s1 l s' Hstep Hy IH]; intros w o Hw.
  - simpl. by erewrite world_after_items_nil.
  - simpl. rewrite (next_return _ _ _ _ _ _ Hw Hstep).
    pose proof (wrapper_at_after_items w self o [v] s1) as Hw1.
    rewrite (IH _ _ Hw1), world_after_items_cons. done.
Qed.

(** A loop over the wrapper is its successive calls up to the first that
    raises. *)
Lemma consume_calls l : ∀ w wk w' self x fuel,
  calls (length l) self w = Some (map Return l, wk) →
  __next__ self wk = Some (Raise x, w') →
  length l < fuel →
  consume __next__ fuel self w = Some (l, x, w').
Proof.
  induction l as [| v l IH]; intros w wk w' self x fuel Hcalls Hlast Hfuel;
    (destruct fuel as [| fuel]; [simpl in Hfuel; lia |]); simpl in *.
  - injection Hcalls as <-. by rewrite Hlast.
  - destruct (__next__ self w) as [[r w1] |]; [| done].
    destruct (calls (length l) self w1) as [[rs w2] |] eqn:Hrest; [| done].
    injection Hcalls as -> -> ->.
    rewrite (IH w1 wk w' self x fuel Hrest Hlast); [done | lia].
Qed.

(** ** What the trace shows *)

Lemma log_records_app (tr1 tr2 : list (event T E)) :
  log_records (tr1 ++ tr2) = log_records tr1 ++ log_records tr2.
Proof. apply omap_app. Qed.

Lemma log_records_after_raise w o s' x :
  log_records (trace (world_after_raise w o s' x)) = log_records (trace w).
Proof. simpl. rewrite log_records_app. apply app_nil_r. Qed.

Lemma log_records_run_events w o l :
  log_records (run_events w o l) = map (item_record w o) (seq 0 (length l)).
Proof.
  unfold run_events.
  enough (∀ k, log_records (concat (imap (λ j, item_events w o (k + j)) l))
               = map (item_record w o) (seq k (length l))) as Hgen
    by exact (Hgen 0).
  induction l as [| v l IH]; intros k; [done |].
  simpl. rewrite Nat.add_0_r. f_equal.
  rewrite <- (IH (S k)). do 2 f_equal.
  apply imap_ext. intros j y _. simpl. f_equal. lia.
Qed.

(** ** Loops *)

Lemma drain_run w self o s l s1 x s2 fuel :
  wrapper_at w self o s →
  yields s l s1 →
  iterator_next s1 = (Raise x, s2) →
  length l < fuel →
  drain fuel self w
  = Some (l, x, world_after_raise (world_after_items w self o l s1)
                  (set_item_number (item_number o + length l) o) s2 x).
Proof.
  intros Hw Hy Hlast Hfuel.
  change (drain fuel self w) with (consume __next__ fuel self w).
  eapply consume_calls; [eapply calls_yields; eassumption | | done].
  eapply next_raise; [apply wrapper_at_after_items | done].
Qed.

Lemma drain_upstream_run w it s l s1 x s2 fuel :
  iterators w !! it = Some s →
  yields s l s1 →
  iterator_next s1 = (Raise x, s2) →
  length l < fuel →
  ∃ w', drain_upstream fuel it w = Some (l, x, w').
Proof.
  intros Hit Hy Hlast Hfuel. revert w fuel Hit Hfuel. unfold drain_upstream.
  induction Hy as [s | s v sm l s1 Hstep Hy IH]; intros w fuel Hit Hfuel;
    (destruct fuel as [| fuel]; [simpl in Hfuel; lia |]);
    simpl; unfold next at 1; rewrite Hit.
  - rewrite Hlast. eauto.
  - rewrite Hstep.
    edestruct (IH Hlast
                  (emit (EvNext it (Return v))
                     (mkWorld (clock w) (clock_reads w)
                              (<[it := sm]> (iterators w)) (objects w) (trace w)))
                  fuel) as [w' Hrest];
      [simpl; apply lookup_insert_eq | simpl in Hfuel; lia |].
    rewrite Hrest. eauto.
Qed.

(** ** Construction *)

Lemma new_object_fresh w : objects w !! new_object w = None.
Proof. apply not_elem_of_dom, is_fresh. Qed.

Lemma TimeLoggingIterator_new_run w lg it nm :
  TimeLoggingIterator_new (Some lg) (Some it) (Some nm) w
  = Some (Return (new_object w), world_after_new w lg it nm).
Proof. done. Qed.

Lemma wrapper_at_new w lg it nm s :
  iterators w !! it = Some s →
  wrapper_at (world_after_new w lg it nm) (new_object w)
             (mkTimeLoggingIterator it nm lg 0) s.
Proof. intros Hit. split; [apply lookup_insert_eq | done]. Qed.

(** ** Any call *)

(** A call of [__next__] on a wrapper in the store is never stuck: it
    returns or raises what the upstream iterator does; the wrapper is in
    the store afterwards, with the same attributes but for [item_number],
    which has grown by one if the call returned an element and is the same
    if it raised; the other wrappers are as they were. *)
Lemma next_step w self o s r s' :
  wrapper_at w self o s →
  iterator_next s = (r, s') →
  ∃ w',
    __next__ self w = Some (r, w') ∧
    wrapper_at w' self
      (set_item_number (item_number o + (if is_Return r then 1 else 0)) o) s' ∧
    (∀ other, other ≠ self → objects w' !! other = objects w !! other).
Proof.
  intros Hw Hstep. destruct r as [v | x].
  - exists (world_after_items w self o [v] s').
    split; [by eapply next_return |].
    split; [apply wrapper_at_after_items |].
    intros other Hne. simpl. by rewrite lookup_insert_ne.
  - exists (world_after_raise w o s' x).
    split; [by eapply next_raise |].
    destruct Hw as [Hself Hit]. simpl.
    rewrite Nat.add_0_r, set_item_number_same.
    repeat split; [done | apply lookup_insert_eq].
Qed.

(** A call that is not stuck was made on a wrapper in the store. *)
Lemma next_inv w self r w' :
  __next__ self w = Some (r, w') → ∃ o s, wrapper_at w self o s.
Proof.
  unfold __next__, mbind, M_bind, time_time, try_except_StopIteration_else,
    getattr, next; simpl.
  destruct (objects w !! self) as [o |] eqn:Hself; [| done]; simpl.
  destruct (iterators w !! iterator o) as [s |] eqn:Hit; [| done].
  intros _. by exists o, s.
Qed.

Lemma wrapper_at_after_raise w self o s s' x :
  wrapper_at w self o s → wrapper_at (world_after_raise w o s' x) self o s'.
Proof. intros [Hself _]. split; [done | apply lookup_insert_eq]. Qed.

(** A wrapper constructed over an exhausted iterator. *)
Lemma new_over_exhausted w lg it nm s s' fuel :
  iterators w !! it = Some s →
  iterator_next s = (Raise StopIteration, s') →
  0 < fuel →
  let w0 := world_after_new w lg it nm in
  let w' := world_after_raise w0 (mkTimeLoggingIterator it nm lg 0) s' StopIteration in
  __next__ (new_object w) w0 = Some (Raise StopIteration, w') ∧
  drain fuel (new_object w) w0 = Some ([], StopIteration, w').
Proof.
  intros Hit Hstop Hfuel w0 w'.
  pose proof (wrapper_at_new w lg it nm s Hit) as Hw0.
  pose proof (next_raise _ _ _ _ _ _ Hw0 Hstop) as Hcall.
  split; [exact Hcall |].
  exact (consume_calls [] _ _ _ _ _ fuel eq_refl Hcall Hfuel).
Qed.

Lemma calls_total k : ∀ w self o s,
  wrapper_at w self o s →
  ∃ rs w' s',
    calls k self w = Some (rs, w') ∧
    length rs = k ∧
    wrapper_at w' self
      (set_item_number (item_number o + length (List.filter is_Return rs)) o) s'.
Proof.
  induction k as [| k IH]; intros w self o s Hw; simpl.
  - exists [], w, s. rewrite Nat.add_0_r, set_item_number_same. done.
  - destruct (iterator_next s) as [r s1] eqn:Hstep.
    destruct (next_step w self o s r s1 Hw Hstep) as (w1 & Hcall & Hw1 & _).
    destruct (IH _ _ _ _ Hw1) as (rs & w' & s' & Hrest & Hlen & Hw').
    exists (r :: rs), w', s'. rewrite Hcall, Hrest.
    split; [done |]. split; [simpl; lia |].
    simpl in Hw'. rewrite set_item_number_twice in Hw'.
    replace (item_number o + length (List.filter is_Return (r :: rs)))
      with (item_number o + (if is_Return r then 1 else 0)
            + length (List.filter is_Return rs)); [done |].
    simpl. destruct (is_Return r); simpl; lia.
Qed.

End Steps.

(** * The properties of the specification *)

Section Claims.
Context {U T E : Type} `{!Iterator U T E}.

Local Abbreviation W := (World U T E).

Implicit Types (w : W) (self it lg : loc) (o : TimeLoggingIterator)
               (s : U) (v : T) (x : exn E) (l : list T).

(** C1.  Transparency: when the upstream iterator yields the elements of
    [l] and is then exhausted, a loop over the wrapper receives exactly
    [l], element for element and in the same order, and ends on
    [StopIteration], as the same loop over the upstream iterator itself
    does. *)
Theorem drain_yields_upstream_elements w self o s l s1 s2 fuel :
  wrapper_at w self o s →
  yields s l s1 →
  iterator_next s1 = (Raise StopIteration, s2) →
  length l < fuel →
  ∃ w1 w2,
    drain_upstream fuel (iterator o) w = Some (l, StopIteration, w1) ∧
    drain fuel self w = Some (l, StopIteration, w2).
Proof.
  intros Hw Hy Hstop Hfuel.
  destruct (drain_upstream_run w (iterator o) s l s1 StopIteration s2 fuel)
    as [w1 Hup]; [apply Hw | done | done | done |].
  exists w1. eexists. split; [exact Hup |].
  eapply drain_run; eassumption.
Qed.

(** C2.  One record per element: when the upstream iterator yields the
    elements of [l] and is then exhausted, a loop over a wrapper that has
    not yielded yet receives [l], and what it adds to the trace is, for each
    element in turn, the start reading of the clock, the request to the
    upstream iterator, the end reading and the record of that element, and
    at the end the request that raised [StopIteration]: every record comes
    right after the retrieval of its element and before the next request.
    The records are as many as the elements, and the positions they carry
    are 1, 2, ..., N. *)
Theorem drain_logs_each_element_once w self o s l s1 s2 fuel :
  wrapper_at w self o s →
  item_number o = 0 →
  yields s l s1 →
  iterator_next s1 = (Raise StopIteration, s2) →
  length l < fuel →
  ∃ w',
    drain fuel self w = Some (l, StopIteration, w') ∧
    trace w' = trace w ++ concat (imap (item_events w o) l)
               ++ [EvTime (clock w (clock_reads w + 2 * length l));
                   EvNext (iterator o) (Raise StopIteration)] ∧
    log_records (trace w')
    = log_records (trace w)
      ++ map (λ i, (logger o, WARNING, message (name o) (elapsed w (i - 1)) i))
             (seq 1 (length l)).
Proof.
  intros Hw Hzero Hy Hstop Hfuel. eexists. split; [eapply drain_run; eassumption |].
  split; [simpl; by rewrite <- app_assoc |].
  rewrite log_records_after_raise. simpl. rewrite log_records_app. f_equal.
  rewrite log_records_run_events, <- seq_shift, map_map.
  apply map_ext. intros j. unfold item_record. rewrite Hzero. simpl.
  by rewrite Nat.sub_0_r, Nat.add_1_r.
Qed.

(** C3.  Exhaustion: when the upstream iterator raises [StopIteration], the
    call of [__next__] raises [StopIteration], hands no record to any
    logger and leaves every wrapper object, so also [item_number], as it
    was.  In particular a wrapper constructed over an exhausted iterator
    raises [StopIteration] at its first call, a loop over it receives
    nothing, and no record is emitted. *)
Theorem exhaustion_propagates_silently :
  (∀ w self o s s',
     wrapper_at w self o s →
     iterator_next s = (Raise StopIteration, s') →
     ∃ w', __next__ self w = Some (Raise StopIteration, w') ∧
           log_records (trace w') = log_records (trace w) ∧
           objects w' = objects w) ∧
  (∀ w lg it nm s s' fuel,
     iterators w !! it = Some s →
     iterator_next s = (Raise StopIteration, s') →
     0 < fuel →
     ∃ self w0 w',
       TimeLoggingIterator_new (Some lg) (Some it) (Some nm) w
       = Some (Return self, w0) ∧
       __next__ self w0 = Some (Raise StopIteration, w') ∧
       drain fuel self w0 = Some ([], StopIteration, w') ∧
       log_records (trace w') = log_records (trace w)).
Proof.
  split.
  - intros w self o s s' Hw Hstop. eexists.
    split; [eapply next_raise; eassumption |].
    split; [apply log_records_after_raise | done].
  - intros w lg it nm s s' fuel Hit Hstop Hfuel.
    destruct (new_over_exhausted w lg it nm s s' fuel Hit Hstop Hfuel)
      as [Hcall Hdrain].
    eexists _, _, _. split; [apply TimeLoggingIterator_new_run |].
    split; [exact Hcall |]. split; [exact Hdrain |].
    by rewrite log_records_after_raise.
Qed.

(** C4.  An upstream error at call k: when the upstream iterator yields the
    elements of [l], k-1 of them, and raises [x], which is not
    [StopIteration], at the next call, then the first k-1 calls of
    [__next__] return the elements of [l] and emit k-1 records, and call k
    raises [x] itself, leaves [item_number] at k-1 more than it was and
    emits no record; a loop over the wrapper has received [l] when [x]
    propagates from it. *)
Theorem upstream_error_at_call_k w self o s l s1 x s2 :
  wrapper_at w self o s →
  yields s l s1 →
  iterator_next s1 = (Raise x, s2) →
  x ≠ StopIteration →
  ∃ wk w',
    calls (length l) self w = Some (map Return l, wk) ∧
    log_records (trace wk)
    = log_records (trace w) ++ map (item_record w o) (seq 0 (length l)) ∧
    objects wk !! self = Some (set_item_number (item_number o + length l) o) ∧
    __next__ self wk = Some (Raise x, w') ∧
    objects w' = objects wk ∧
    log_records (trace w') = log_records (trace wk) ∧
    ∀ fuel, length l < fuel → drain fuel self w = Some (l, x, w').
Proof.
  intros Hw Hy Herr _.
  pose proof (wrapper_at_after_items w self o l s1) as Hwk.
  eexists _, _. split; [eapply calls_yields; eassumption |].
  split; [simpl; by rewrite log_records_app, log_records_run_events |].
  split; [apply Hwk |].
  split; [eapply next_raise; eassumption |].
  split; [done |]. split; [apply log_records_after_raise |].
  intros fuel Hfuel. eapply drain_run; eassumption.
Qed.

(** C5.  The counter: construction leaves [item_number] at 0; a call of
    [__next__] adds 1 to it when it returns an element and nothing when it
    raises, whether [StopIteration] or anything else; so after any number
    of calls on a newly constructed wrapper, whatever each of them did,
    [item_number] is the number of those that returned an element. *)
Theorem item_number_counts_elements :
  (∀ w lg it nm,
     ∃ self w0 o0,
       TimeLoggingIterator_new (Some lg) (Some it) (Some nm) w
       = Some (Return self, w0) ∧
       objects w0 !! self = Some o0 ∧ item_number o0 = 0) ∧
  (∀ w self o s,
     wrapper_at w self o s →
     ∃ r w' o',
       __next__ self w = Some (r, w') ∧
       objects w' !! self = Some o' ∧
       item_number o' = item_number o + (if is_Return r then 1 else 0)) ∧
  (∀ k w lg it nm s,
     iterators w !! it = Some s →
     ∃ self w0 rs w' o',
       TimeLoggingIterator_new (Some lg) (Some it) (Some nm) w
       = Some (Return self, w0) ∧
       calls k self w0 = Some (rs, w') ∧
       length rs = k ∧
       objects w' !! self = Some o' ∧
       item_number o' = length (List.filter is_Return rs)).
Proof.
  split; [| split].
  - intros w lg it nm. eexists _, _, _.
    split; [apply TimeLoggingIterator_new_run |].
    split; [apply lookup_insert_eq | done].
  - intros w self o s Hw.
    destruct (iterator_next s) as [r s'] eqn:Hstep.
    destruct (next_step w self o s r s' Hw Hstep) as (w' & Hcall & [Hself _] & _).
    eexists _, _, _. split; [exact Hcall |]. split; [exact Hself | done].
  - intros k w lg it nm s Hit.
    destruct (calls_total k _ _ _ _ (wrapper_at_new w lg it nm s Hit))
      as (rs & w' & s' & Hcalls & Hlen & [Hself _]).
    eexists _, _, _, _, _. split; [apply TimeLoggingIterator_new_run |].
    split; [exact Hcalls |]. split; [exact Hlen |]. split; [exact Hself | done].
Qed.

(** C7.  Severity and the "demo" scenario: whatever a call of [__next__]
    hands to a logger, it hands at WARNING.  A wrapper named "demo" that is
    constructed over [iter(["a", "b", "c"])], with a clock that does not
    advance, yields "a", "b", "c" to a loop, and the logger receives these
    three messages. *)
Theorem records_are_warnings_and_demo :
  (∀ w self r w',
     __next__ self w = Some (r, w') →
     ∃ evs, trace w' = trace w ++ evs ∧
            ∀ lg lv msg, EvLog lg lv msg ∈ evs → lv = WARNING) ∧
  (∃ (self : loc) (w0 w' : World (list (result string string)) string string),
     TimeLoggingIterator_new (Some 2%positive) (Some 1%positive) (Some "demo")
                             demo_world
     = Some (Return self, w0) ∧
     drain 4 self w0 = Some (["a"; "b"; "c"], StopIteration, w') ∧
     log_records (trace w')
     = [(2%positive, WARNING, "demo iterator: 0.0s for item #1");
        (2%positive, WARNING, "demo iterator: 0.0s for item #2");
        (2%positive, WARNING, "demo iterator: 0.0s for item #3")]).
Proof.
  split.
  - intros w self r w' Hcall.
    destruct (next_inv _ _ _ _ Hcall) as (o & s & Hw).
    destruct (iterator_next s) as [[v | x] s'] eqn:Hstep.
    + rewrite (next_return _ _ _ _ _ _ Hw Hstep) in Hcall.
      injection Hcall as <- <-. eexists. split; [done |].
      intros lg lv msg Hin. simpl in Hin.
      repeat (apply elem_of_cons in Hin as [Hin | Hin]; [by inversion Hin |]).
      by apply elem_of_nil in Hin.
    + rewrite (next_raise _ _ _ _ _ _ Hw Hstep) in Hcall.
      injection Hcall as <- <-. eexists. split; [done |].
      intros lg lv msg Hin.
      repeat (apply elem_of_cons in Hin as [Hin | Hin]; [by inversion Hin |]).
      by apply elem_of_nil in Hin.
  - eexists _, _, _. split; [apply TimeLoggingIterator_new_run |].
    split; vm_compute; reflexivity.
Qed.

(** C8 (as amended).  Construction performs no validation at all: whatever
    three values are passed for the logger, the upstream iterator and the
    name, [None] included, [__init__] returns normally with exactly these
    values under [logger], [iterator] and [name], 0 under [item_number], and
    every other attribute as it was.  On a logger, an iterator and a string
    this is the wrapper that the call leaves in the store, a new object,
    with nothing else in the world changed.  A wrapper may be constructed
    over an exhausted iterator: a loop over it receives nothing. *)
Theorem construction_stores_any_values :
  (∀ (logger iterator name : pyvalue) (d0 : gmap string pyvalue),
     ∃ d,
       __init___untyped (E := E) logger iterator name d0 = Some (Return (), d) ∧
       d !! "logger" = Some logger ∧
       d !! "iterator" = Some iterator ∧
       d !! "name" = Some name ∧
       d !! "item_number" = Some (PyInt 0) ∧
       ∀ attr, attr ∉ ["iterator"; "name"; "logger"; "item_number"] →
               d !! attr = d0 !! attr) ∧
  (∀ w lg it nm,
     ∃ self w0 o d,
       TimeLoggingIterator_new (Some lg) (Some it) (Some nm) w
       = Some (Return self, w0) ∧
       objects w !! self = None ∧
       objects w0 = <[self := o]> (objects w) ∧
       __init___untyped (E := E) (PyRef lg) (PyRef it) (PyStr nm) ∅
       = Some (Return (), d) ∧
       as_TimeLoggingIterator d = Some o ∧
       o = mkTimeLoggingIterator it nm lg 0 ∧
       iterators w0 = iterators w ∧ trace w0 = trace w ∧
       clock_reads w0 = clock_reads w) ∧
  (∀ w lg it nm s s' fuel,
     iterators w !! it = Some s →
     iterator_next s = (Raise StopIteration, s') →
     0 < fuel →
     ∃ self w0 w',
       TimeLoggingIterator_new (Some lg) (Some it) (Some nm) w
       = Some (Return self, w0) ∧
       drain fuel self w0 = Some ([], StopIteration, w')).
Proof.
  split; [| split].
  - intros logger iterator name d0.
    exists (<["item_number" := PyInt 0]>
              (<["logger" := logger]> (<["name" := name]> (<["iterator" := iterator]> d0)))).
    split; [reflexivity |].
    split; [by rewrite lookup_insert_ne, lookup_insert_eq by done |].
    split; [by rewrite !lookup_insert_ne, lookup_insert_eq by done |].
    split; [by rewrite !lookup_insert_ne, lookup_insert_eq by done |].
    split; [by rewrite lookup_insert_eq |].
    intros attr Hattr. repeat (apply not_elem_of_cons in Hattr as [? Hattr]).
    by rewrite !lookup_insert_ne by done.
  - intros w lg it nm.
    exists (new_object w), (world_after_new w lg it nm),
      (mkTimeLoggingIterator it nm lg 0),
      (<["item_number" := PyInt 0]>
         (<["logger" := PyRef lg]> (<["name" := PyStr nm]> (<["iterator" := PyRef it]> ∅)))).
    split; [apply TimeLoggingIterator_new_run |].
    split; [apply new_object_fresh |]. split; [reflexivity |].
    split; [reflexivity |]. split; [| done].
    unfold as_TimeLoggingIterator.
    rewrite lookup_insert_eq.
    rewrite (lookup_insert_ne _ "item_number" "logger"), lookup_insert_eq by done.
    rewrite !(lookup_insert_ne _ _ "name"), lookup_insert_eq by done.
    rewrite !(lookup_insert_ne _ _ "iterator"), lookup_insert_eq by done.
    done.
  - intros w lg it nm s s' fuel Hit Hstop Hfuel.
    destruct (new_over_exhausted w lg it nm s s' fuel Hit Hstop Hfuel)
      as [_ Hdrain].
    eexists _, _, _. split; [apply TimeLoggingIterator_new_run | exact Hdrain].
Qed.

(** C9.  [__iter__] returns the reference it was given and changes nothing
    in the world, so the counter is not reset: when a loop over the wrapper
    has received [l1] and ended, a second loop over the same wrapper
    receives what the upstream iterator yields next, [l2], and the records
    of the second loop carry the positions that follow those of the first,
    [item_number + length l1 + 1] and so on. *)
Theorem iter_returns_self_numbering_continues :
  (∀ self w, __iter__ self w = Some (Return self, w)) ∧
  (∀ w self o s l1 s1 x1 s2 l2 s3 x2 s4 fuel,
     wrapper_at w self o s →
     yields s l1 s1 → iterator_next s1 = (Raise x1, s2) →
     yields s2 l2 s3 → iterator_next s3 = (Raise x2, s4) →
     length l1 < fuel → length l2 < fuel →
     ∃ w1 w2,
       drain fuel self w = Some (l1, x1, w1) ∧
       drain fuel self w1 = Some (l2, x2, w2) ∧
       log_records (trace w2)
       = log_records (trace w1)
         ++ map (λ j, (logger o, WARNING,
                       message (name o) (elapsed w1 j)
                               (item_number o + length l1 + j + 1)))
                (seq 0 (length l2)) ∧
       objects w2 !! self
       = Some (set_item_number (item_number o + length l1 + length l2) o)).
Proof.
  split; [done |].
  intros w self o s l1 s1 x1 s2 l2 s3 x2 s4 fuel Hw Hy1 Hx1 Hy2 Hx2 Hf1 Hf2.
  pose proof (drain_run _ _ _ _ _ _ _ _ _ Hw Hy1 Hx1 Hf1) as Hfirst.
  pose proof (wrapper_at_after_raise _ _ _ _ s2 x1
                (wrapper_at_after_items w self o l1 s1)) as Hw1.
  pose proof (drain_run _ _ _ _ _ _ _ _ _ Hw1 Hy2 Hx2 Hf2) as Hsecond.
  eexists _, _. split; [exact Hfirst |]. split; [exact Hsecond |].
  split.
  - rewrite log_records_after_raise.
    unfold world_after_items at 1. unfold trace at 1.
    by rewrite log_records_app, log_records_run_events.
  - simpl. by rewrite lookup_insert_eq.
Qed.

(** C10.  Frame: whatever the upstream iterator does at a call of
    [__next__], return an element, raise [StopIteration] or raise anything
    else, the wrapper has afterwards the [iterator], [name] and [logger]
    it had before, and every other wrapper in the store is as it was. *)
Theorem next_changes_only_item_number w self o s r s' :
  wrapper_at w self o s →
  iterator_next s = (r, s') →
  ∃ w' o',
    __next__ self w = Some (r, w') ∧
    objects w' !! self = Some o' ∧
    iterator o' = iterator o ∧ name o' = name o ∧ logger o' = logger o ∧
    (∀ other, other ≠ self → objects w' !! other = objects w !! other).
Proof.
  intros Hw Hstep.
  destruct (next_step w self o s r s' Hw Hstep) as (w' & Hcall & [Hself _] & Hothers).
  by eexists _, _.
Qed.

End Claims.

(** * The properties at concrete worlds *)

(** C1 at the "demo" wrapper. *)
Lemma drain_yields_upstream_elements_witness :
  ∃ w1 w2,
    drain_upstream 4 1%positive demo_wrapped = Some (["a"; "b"; "c"], StopIteration, w1) ∧
    drain 4 5%positive demo_wrapped = Some (["a"; "b"; "c"], StopIteration, w2).
Proof.
  apply (drain_yields_upstream_elements
           demo_wrapped 5%positive demo_wrapper demo_source ["a"; "b"; "c"] [] [] 4).
  - split; reflexivity.
  - repeat econstructor.
  - reflexivity.
  - simpl; lia.
Defined.

(** C2 at the "demo" wrapper. *)
Lemma drain_logs_each_element_once_witness :
  ∃ w',
    drain 4 5%positive demo_wrapped = Some (["a"; "b"; "c"], StopIteration, w') ∧
    requests (trace w')
    = [(1%positive, Return "a"); (1%positive, Return "b"); (1%positive, Return "c");
       (1%positive, Raise StopIteration)] ∧
    log_records (trace w')
    = [(2%positive, WARNING, "demo iterator: 0.0s for item #1");
       (2%positive, WARNING, "demo iterator: 0.0s for item #2");
       (2%positive, WARNING, "demo iterator: 0.0s for item #3")].
Proof.
  edestruct (drain_logs_each_element_once
               demo_wrapped 5%positive demo_wrapper demo_source ["a"; "b"; "c"] [] [] 4)
    as (w' & Hdrain & Htrace & Hlog);
    [split; reflexivity | reflexivity | repeat econstructor | reflexivity
     | simpl; lia |].
  exists w'. split; [exact Hdrain |]. split.
  - rewrite Htrace. reflexivity.
  - rewrite Hlog. reflexivity.
Defined.

(** C3 at a wrapper over [iter([])]: a call on the wrapper in the store, and
    construction followed by a loop. *)
Lemma exhaustion_propagates_silently_witness :
  (∃ w', __next__ 5%positive exhausted_wrapped = Some (Raise StopIteration, w') ∧
         log_records (trace w') = log_records (trace exhausted_wrapped) ∧
         objects w' = objects exhausted_wrapped) ∧
  (∃ self w0 w',
     TimeLoggingIterator_new (Some 2%positive) (Some 1%positive) (Some "demo")
                             exhausted_world
     = Some (Return self, w0) ∧
     __next__ self w0 = Some (Raise StopIteration, w') ∧
     drain 1 self w0 = Some ([], StopIteration, w') ∧
     log_records (trace w') = log_records (trace exhausted_world)).
Proof.
  split.
  - apply (proj1 exhaustion_propagates_silently
             exhausted_wrapped 5%positive demo_wrapper [] []);
      [split; reflexivity | reflexivity].
  - apply (proj2 exhaustion_propagates_silently
             exhausted_world 2%positive 1%positive "demo" [] [] 1);
      [reflexivity | reflexivity | lia].
Defined.

(** C4 at the source that raises [ValueError] at its third call. *)
Lemma upstream_error_at_call_k_witness :
  ∃ wk w',
    calls 2 5%positive failing_wrapped = Some ([Return "a"; Return "b"], wk) ∧
    length (log_records (trace wk)) = 2 ∧
    item_number <$> objects wk !! 5%positive = Some 2 ∧
    __next__ 5%positive wk = Some (Raise (OtherError "ValueError"), w') ∧
    objects w' = objects wk ∧
    log_records (trace w') = log_records (trace wk) ∧
    drain 3 5%positive failing_wrapped = Some (["a"; "b"], OtherError "ValueError", w').
Proof.
  edestruct (upstream_error_at_call_k
               failing_wrapped 5%positive demo_wrapper failing_source ["a"; "b"]
               [Raise (OtherError "ValueError"); Return "c"]
               (OtherError "ValueError") [Return "c"])
    as (wk & w' & Hcalls & Hlog & Hself & Hcall & Hobjs & Hsame & Hdrain);
    [split; reflexivity | repeat econstructor | reflexivity | discriminate |].
  exists wk, w'. split; [exact Hcalls |]. split; [rewrite Hlog; reflexivity |].
  split; [exact (f_equal (fmap item_number) Hself) |]. split; [exact Hcall |].
  split; [exact Hobjs |]. split; [exact Hsame |]. apply Hdrain. simpl; lia.
Defined.

(** C5 at the same source: four calls on a newly constructed wrapper. *)
Lemma item_number_counts_elements_witness :
  ∃ self w0 rs w' o',
    TimeLoggingIterator_new (Some 2%positive) (Some 1%positive) (Some "demo")
                            failing_world
    = Some (Return self, w0) ∧
    calls 4 self w0 = Some (rs, w') ∧
    length rs = 4 ∧
    objects w' !! self = Some o' ∧
    item_number o' = length (List.filter is_Return rs).
Proof.
  apply (proj2 (proj2 item_number_counts_elements)
           4 failing_world 2%positive 1%positive "demo" failing_source).
  reflexivity.
Defined.

(** C6.  The elapsed time logged is not always >= 0.  The two timestamps are
    readings of [time.time()], the wall clock, which can be set back between
    them: with a start reading of 5.0 and an end reading of 3.0 (doubles
    whose difference, -2.0, is a double) the call returns "a" and hands the
    logger "demo iterator: -2.0s for item #1", a time taken of -2.0 seconds. *)
Lemma elapsed_negative_when_clock_set_back :
  ∃ w',
    __next__ 5%positive set_back_wrapped = Some (Return "a", w') ∧
    trace w' = [EvTime 5; EvNext 1%positive (Return "a"); EvTime 3;
                EvLog 2%positive WARNING "demo iterator: -2.0s for item #1"] ∧
    message "demo" (round3 (float_sub 3 5)) 1 = "demo iterator: -2.0s for item #1" ∧
    ¬ (0 <= float3_value (round3 (float_sub 3 5)))%Q.
Proof.
  eexists. split; [vm_compute; reflexivity |].
  split; [reflexivity |]. split; [reflexivity |].
  vm_compute. intros Hle. apply Hle. reflexivity.
Qed.

(** C7: the records of the first call on the "demo" wrapper. *)
Lemma records_are_warnings_and_demo_witness :
  match __next__ 5%positive demo_wrapped with
  | Some (_, w') =>
      ∃ evs, trace w' = trace demo_wrapped ++ evs ∧
             ∀ lg lv msg, EvLog lg lv msg ∈ evs → lv = WARNING
  | None => False
  end.
Proof.
  destruct (__next__ 5%positive demo_wrapped) as [[r w'] |] eqn:Hcall.
  - exact (proj1 records_are_warnings_and_demo demo_wrapped 5%positive r w' Hcall).
  - vm_compute in Hcall. discriminate.
Defined.

(** C8 as stated fails when [None] is passed: [__init__] checks nothing, so
    [TimeLoggingIterator(None, None, None)] is constructed like any other,
    with [None] for its logger, its iterator and its name, and nothing is
    raised. *)
Lemma construction_accepts_None :
  (∃ d,
     __init___untyped (E := string) PyNone PyNone PyNone ∅ = Some (Return (), d) ∧
     d !! "logger" = Some PyNone ∧
     d !! "iterator" = Some PyNone ∧
     d !! "name" = Some PyNone ∧
     d !! "item_number" = Some (PyInt 0)) ∧
  ¬ ∃ x d, __init___untyped (E := string) PyNone PyNone PyNone ∅ = Some (Raise x, d).
Proof.
  split.
  - eexists. repeat split; reflexivity.
  - intros (x & d & Hraise). discriminate.
Qed.

(** C8 (as amended): construction with [None] for the logger; construction
    over [iter(["a", "b", "c"])]; construction over [iter([])]. *)
Lemma construction_stores_any_values_witness :
  (∃ d,
     __init___untyped (E := string) PyNone (PyRef 1%positive) (PyStr "demo") ∅
     = Some (Return (), d) ∧
     d !! "logger" = Some PyNone ∧
     d !! "iterator" = Some (PyRef 1%positive) ∧
     d !! "name" = Some (PyStr "demo") ∧
     d !! "item_number" = Some (PyInt 0) ∧
     ∀ attr, attr ∉ ["iterator"; "name"; "logger"; "item_number"] →
             d !! attr = (∅ : gmap string pyvalue) !! attr) ∧
  (∃ self w0 o d,
     TimeLoggingIterator_new (Some 2%positive) (Some 1%positive) (Some "demo")
                             demo_world
     = Some (Return self, w0) ∧
     objects demo_world !! self = None ∧
     objects w0 = <[self := o]> (objects demo_world) ∧
     __init___untyped (E := string) (PyRef 2%positive) (PyRef 1%positive)
                      (PyStr "demo") ∅
     = Some (Return (), d) ∧
     as_TimeLoggingIterator d = Some o ∧
     o = demo_wrapper ∧
     iterators w0 = iterators demo_world ∧ trace w0 = trace demo_world ∧
     clock_reads w0 = clock_reads demo_world) ∧
  (∃ self w0 w',
     TimeLoggingIterator_new (Some 2%positive) (Some 1%positive) (Some "demo")
                             exhausted_world
     = Some (Return self, w0) ∧
     drain 1 self w0 = Some ([], StopIteration, w')).
Proof.
  split; [| split].
  - apply (proj1 (construction_stores_any_values
                    (U := list (result string string)) (T := string))
             PyNone (PyRef 1%positive) (PyStr "demo") ∅).
  - apply (proj1 (proj2 construction_stores_any_values)
             demo_world 2%positive 1%positive "demo").
  - apply (proj2 (proj2 construction_stores_any_values)
             exhausted_world 2%positive 1%positive "demo" [] [] 1);
      [reflexivity | reflexivity | lia].
Defined.

(** C9: two loops over a wrapper whose source is exhausted after "a" and
    later yields "b" and "c": the second loop is numbered 2 and 3. *)
Lemma iter_returns_self_numbering_continues_witness :
  __iter__ 5%positive resuming_wrapped = Some (Return 5%positive, resuming_wrapped) ∧
  ∃ w1 w2,
    drain 3 5%positive resuming_wrapped = Some (["a"], StopIteration, w1) ∧
    drain 3 5%positive w1 = Some (["b"; "c"], StopIteration, w2) ∧
    log_records (trace w2)
    = log_records (trace w1)
      ++ [(2%positive, WARNING, "demo iterator: 0.0s for item #2");
          (2%positive, WARNING, "demo iterator: 0.0s for item #3")] ∧
    item_number <$> objects w2 !! 5%positive = Some 3.
Proof.
  split; [apply (proj1 iter_returns_self_numbering_continues) |].
  edestruct (proj2 iter_returns_self_numbering_continues
               resuming_wrapped 5%positive demo_wrapper resuming_source
               ["a"] [Raise StopIteration; Return "b"; Return "c"] StopIteration
               [Return "b"; Return "c"] ["b"; "c"] [] StopIteration [] 3)
    as (w1 & w2 & Hfirst & Hsecond & Hlog & Hself);
    [split; reflexivity | repeat econstructor | reflexivity | repeat econstructor
     | reflexivity | simpl; lia | simpl; lia |].
  exists w1, w2. split; [exact Hfirst |]. split; [exact Hsecond |].
  split; [| exact (f_equal (fmap item_number) Hself)].
  rewrite Hlog. f_equal.
  vm_compute in Hfirst. injection Hfirst as <-. reflexivity.
Defined.

(** C10: the first call on the "demo" wrapper. *)
Lemma next_changes_only_item_number_witness :
  ∃ w' o',
    __next__ 5%positive demo_wrapped = Some (Return "a", w') ∧
    objects w' !! 5%positive = Some o' ∧
    iterator o' = 1%positive ∧ name o' = "demo" ∧ logger o' = 2%positive ∧
    (∀ other, other ≠ 5%positive →
              objects w' !! other = objects demo_wrapped !! other).
Proof.
  apply (next_changes_only_item_number
           demo_wrapped 5%positive demo_wrapper demo_source (Return "a")
           [Return "b"; Return "c"]);
    [split; reflexivity | reflexivity].
Defined.

(** * Further properties of the wrapper *)

Section Further.
Context {U T E : Type} `{!Iterator U T E}.

Local Abbreviation W := (World U T E).

Implicit Types (w : W) (self it lg : loc) (o : TimeLoggingIterator)
               (s : U) (v : T) (x : exn E) (l : list T).

Lemma consume_S (nxt : loc → M W E T) fuel it w :
  consume nxt (S fuel) it w
  = match nxt it w with
    | Some (Return v, w') =>
        match consume nxt fuel it w' with
        | Some (vs, x, w'') => Some (v :: vs, x, w'')
        | None => None
        end
    | Some (Raise x, w') => Some ([], x, w')
    | None => None
    end.
Proof. done. Qed.

Lemma calls_S k self w :
  calls (S k) self w
  = match __next__ self w with
    | Some (r, w') =>
        match calls k self w' with
        | Some (rs, w'') => Some (r :: rs, w'')
        | None => None
        end
    | None => None
    end.
Proof. done. Qed.

(** [next(it)] on an upstream iterator in the store. *)
Lemma upstream_next w it s r s' :
  iterators w !! it = Some s →
  iterator_next s = (r, s') →
  ∃ w', next it w = Some (r, w') ∧ iterators w' = <[it := s']> (iterators w).
Proof. intros Hit Hstep. unfold next. rewrite Hit, Hstep. eauto. Qed.

(** A loop over the wrapper and a loop over the upstream iterator, started
    with the upstream iterators in the same states, go the same way. *)
Lemma consume_wrapped_upstream fuel : ∀ wA wB self o s,
  wrapper_at wA self o s →
  iterators wB = iterators wA →
  (∀ l x wB', consume next fuel (iterator o) wB = Some (l, x, wB') →
     ∃ wA', consume __next__ fuel self wA = Some (l, x, wA') ∧
            iterators wA' = iterators wB') ∧
  (consume next fuel (iterator o) wB = None →
   consume __next__ fuel self wA = None).
Proof.
  induction fuel as [| fuel IH]; intros wA wB self o s Hw Hsame; [by split |].
  rewrite !consume_S.
  destruct (iterator_next s) as [[v | x] s1] eqn:Hstep.
  - destruct (upstream_next wB (iterator o) s (Return v) s1)
      as (wB1 & -> & HitB); [rewrite Hsame; apply Hw | done |].
    rewrite (next_return _ _ _ _ _ _ Hw Hstep).
    destruct (IH (world_after_items wA self o [v] s1) wB1 self
                 (set_item_number (item_number o + 1) o) s1) as [Hsome Hnone];
      [apply wrapper_at_after_items | by rewrite HitB, Hsame |].
    simpl iterator in Hsome, Hnone.
    destruct (consume next fuel (iterator o) wB1) as [[[l x] wB'] |].
    + destruct (Hsome l x wB' eq_refl) as (wA' & -> & Hits).
      split; [| done]. intros l0 x0 wB0 [= <- <- <-]. eauto.
    + rewrite (Hnone eq_refl). by split.
  - destruct (upstream_next wB (iterator o) s (Raise x) s1)
      as (wB1 & -> & HitB); [rewrite Hsame; apply Hw | done |].
    rewrite (next_raise _ _ _ _ _ _ Hw Hstep).
    split; [| done]. intros l0 x0 wB0 [= <- <- <-].
    eexists. split; [done |]. by rewrite HitB, Hsame.
Qed.

(** X1.  Transparency for any upstream iterator: whatever a loop over the
    upstream iterator does within some number of steps (receive [l] and end
    on the exception [x], whether [StopIteration] or an error), the loop over
    the wrapper does the same with the same [l] and [x], and leaves the
    upstream iterator in the same state: the wrapper has taken nothing more
    from it.  And when the loop over the upstream iterator has not ended
    within these steps, neither has the loop over the wrapper. *)
Theorem drain_follows_upstream w self o s fuel :
  wrapper_at w self o s →
  (∀ l x w1, drain_upstream fuel (iterator o) w = Some (l, x, w1) →
     ∃ w2, drain fuel self w = Some (l, x, w2) ∧ iterators w2 = iterators w1) ∧
  (drain_upstream fuel (iterator o) w = None → drain fuel self w = None).
Proof.
  intros Hw. exact (consume_wrapped_upstream fuel w w self o s Hw eq_refl).
Qed.

Lemma requests_app (tr1 tr2 : list (event T E)) :
  requests (tr1 ++ tr2) = requests tr1 ++ requests tr2.
Proof. apply omap_app. Qed.

(** What any [k] calls of [__next__] add to the trace: [es] are the elapsed
    times of the calls that returned an element. *)
Lemma calls_trace k : ∀ w self o s,
  wrapper_at w self o s →
  ∃ rs w' s' es,
    calls k self w = Some (rs, w') ∧
    length rs = k ∧
    length es = length (List.filter is_Return rs) ∧
    wrapper_at w' self (set_item_number (item_number o + length es) o) s' ∧
    requests (trace w') = requests (trace w) ++ map (λ r, (iterator o, r)) rs ∧
    log_records (trace w')
    = log_records (trace w)
      ++ imap (λ i e, (logger o, WARNING,
                       message (name o) e (item_number o + i + 1))) es ∧
    clock_reads w' = clock_reads w + k + length es.
Proof.
  induction k as [| k IH]; intros w self o s Hw.
  - exists [], w, s, []. simpl.
    rewrite !Nat.add_0_r, !app_nil_r, set_item_number_same. done.
  - rewrite calls_S. destruct (iterator_next s) as [[v | x] s1] eqn:Hstep.
    + rewrite (next_return _ _ _ _ _ _ Hw Hstep).
      destruct (IH _ _ _ _ (wrapper_at_after_items w self o [v] s1))
        as (rs & w' & s' & es & -> & Hlen & Hes & Hw' & Hreq & Hlog & Hclk).
      exists (Return v :: rs), w', s', (elapsed w 0 :: es).
      split; [done |]. split; [simpl; lia |]. split; [simpl; lia |].
      split; [| split; [| split]].
      * rewrite set_item_number_twice in Hw'. simpl in Hw'. simpl length.
        by replace (item_number o + S (length es))
          with (item_number o + 1 + length es) by lia.
      * rewrite Hreq. simpl. by rewrite requests_app, <- app_assoc.
      * rewrite Hlog. simpl. rewrite log_records_app, <- app_assoc.
        f_equal. simpl. rewrite Nat.add_0_r. f_equal.
        apply imap_ext. intros i e _. simpl. do 2 f_equal. lia.
      * rewrite Hclk. simpl. lia.
    + rewrite (next_raise _ _ _ _ _ _ Hw Hstep).
      destruct (IH _ _ _ _ (wrapper_at_after_raise w self o s s1 x Hw))
        as (rs & w' & s' & es & -> & Hlen & Hes & Hw' & Hreq & Hlog & Hclk).
      exists (Raise x :: rs), w', s', es.
      split; [done |]. split; [simpl; lia |]. split; [done |].
      split; [done |]. split; [| split].
      * rewrite Hreq. simpl. by rewrite requests_app, <- app_assoc.
      * rewrite Hlog. simpl. by rewrite log_records_app, app_nil_r.
      * rewrite Hclk. simpl. lia.
Qed.

(** X2.  One request per call: in any sequence of [k] calls of [__next__],
    whatever the upstream iterator does, the wrapper asks its upstream
    iterator exactly [k] times, and what the calls return or raise is, call
    by call, what these requests returned or raised: nothing is asked ahead,
    asked again or held back.  The clock is read twice in a call that
    returns an element and once in a call that raises, and a record is
    emitted for each call that returns an element and for no other. *)
Theorem one_request_per_call w self o s k :
  wrapper_at w self o s →
  ∃ rs w',
    calls k self w = Some (rs, w') ∧
    length rs = k ∧
    requests (trace w') = requests (trace w) ++ map (λ r, (iterator o, r)) rs ∧
    clock_reads w' = clock_reads w + k + length (List.filter is_Return rs) ∧
    length (log_records (trace w'))
    = length (log_records (trace w)) + length (List.filter is_Return rs).
Proof.
  intros Hw.
  destruct (calls_trace k w self o s Hw)
    as (rs & w' & s' & es & Hcalls & Hlen & Hes & _ & Hreq & Hlog & Hclk).
  exists rs, w'. repeat split; [done | done | done | by rewrite <- Hes |].
  by rewrite Hlog, length_app, length_imap, Hes.
Qed.

(** X3.  Numbering without gaps: in any sequence of calls of [__next__],
    with calls that raise [StopIteration] or errors anywhere among those
    that return elements, the records emitted carry consecutive positions:
    the first of them one more than [item_number] was, every next one more
    than the one before; their number is the number of elements returned,
    and [item_number] is afterwards the position on the last record. *)
Theorem positions_are_consecutive w self o s k :
  wrapper_at w self o s →
  ∃ rs w' (es : list float3),
    calls k self w = Some (rs, w') ∧
    length es = length (List.filter is_Return rs) ∧
    log_records (trace w')
    = log_records (trace w)
      ++ imap (λ i e, (logger o, WARNING,
                       message (name o) e (item_number o + i + 1))) es ∧
    item_number <$> objects w' !! self = Some (item_number o + length es).
Proof.
  intros Hw.
  destruct (calls_trace k w self o s Hw)
    as (rs & w' & s' & es & Hcalls & _ & Hes & [Hself _] & _ & Hlog & _).
  exists rs, w', es. repeat split; [done | done | done |].
  by rewrite Hself.
Qed.

Lemma always_yields k : ∀ s,
  (∀ s0 : U, ∃ v s1, iterator_next s0 = (Return v, s1)) →
  ∃ l s', yields s l s' ∧ length l = k.
Proof.
  induction k as [| k IH]; intros s Halways.
  - exists [], s. split; [constructor | done].
  - destruct (Halways s) as (v & s1 & Hstep).
    destruct (IH s1 Halways) as (l & s' & Hy & Hlen).
    exists (v :: l), s'. split; [by econstructor | simpl; lia].
Qed.

(** X4.  A source that never ends: over an upstream iterator every state
    of which returns an element, the wrapper returns an element at every
    call, so [k] calls return [k] elements, emit [k] records and leave
    [item_number] advanced by [k]; and a loop over the wrapper does not end,
    however many steps it is given. *)
Theorem never_ending_upstream w self o s :
  (∀ s0 : U, ∃ v s1, iterator_next s0 = (Return v, s1)) →
  wrapper_at w self o s →
  (∀ k, ∃ l w',
     calls k self w = Some (map Return l, w') ∧
     length l = k ∧
     item_number <$> objects w' !! self = Some (item_number o + k) ∧
     length (log_records (trace w')) = length (log_records (trace w)) + k) ∧
  (∀ fuel, drain fuel self w = None).
Proof.
  intros Halways Hw. split.
  - intros k. destruct (always_yields k s Halways) as (l & s' & Hy & Hlen).
    exists l, (world_after_items w self o l s').
    split; [rewrite <- Hlen; by eapply calls_yields |]. split; [done |].
    split; [simpl; by rewrite lookup_insert_eq, Hlen |].
    simpl. by rewrite log_records_app, log_records_run_events, length_app,
      length_map, length_seq, Hlen.
  - intros fuel. change (drain fuel self w) with (consume __next__ fuel self w).
    revert w o s Hw. induction fuel as [| fuel IH]; intros w o s Hw; [done |].
    destruct (Halways s) as (v & s1 & Hstep).
    rewrite consume_S, (next_return _ _ _ _ _ _ Hw Hstep).
    by rewrite (IH _ _ _ (wrapper_at_after_items w self o [v] s1)).
Qed.

(** X5.  Two wrappers over one upstream iterator share it: when a call on
    the first has returned an element, a call on the second returns the
    element that the upstream iterator yields after it, not the same one;
    and each wrapper counts the elements that came through it, not those of
    the other. *)
Theorem wrappers_share_the_upstream w a b oa ob s v1 s1 v2 s2 :
  a ≠ b →
  objects w !! a = Some oa →
  objects w !! b = Some ob →
  iterator ob = iterator oa →
  iterators w !! iterator oa = Some s →
  iterator_next s = (Return v1, s1) →
  iterator_next s1 = (Return v2, s2) →
  ∃ w1 w2,
    __next__ a w = Some (Return v1, w1) ∧
    __next__ b w1 = Some (Return v2, w2) ∧
    iterators w2 !! iterator oa = Some s2 ∧
    item_number <$> objects w2 !! a = Some (item_number oa + 1) ∧
    item_number <$> objects w2 !! b = Some (item_number ob + 1).
Proof.
  intros Hne Ha Hb Hshared Hit Hstep1 Hstep2.
  assert (wrapper_at w a oa s) as Hwa by done.
  assert (wrapper_at (world_after_items w a oa [v1] s1) b ob s1) as Hwb.
  { split; simpl; [by rewrite lookup_insert_ne | rewrite Hshared; apply lookup_insert_eq]. }
  eexists _, _. split; [by eapply next_return |].
  split; [by eapply next_return |]. simpl.
  rewrite Hshared, lookup_insert_eq, lookup_insert_ne, !lookup_insert_eq by done.
  done.
Qed.

(** X6.  The elements are not logged: two loops over a wrapper, with the
    same readings of the clock, over sources that yield as many elements,
    emit the same records, whatever the elements are and whatever exception
    ends each source. *)
Theorem records_do_not_show_elements
    w1 w2 self o s1 s2 l1 l2 t1 t2 x1 x2 u1 u2 fuel :
  wrapper_at w1 self o s1 →
  wrapper_at w2 self o s2 →
  clock w1 = clock w2 →
  clock_reads w1 = clock_reads w2 →
  log_records (trace w1) = log_records (trace w2) →
  yields s1 l1 t1 → iterator_next t1 = (Raise x1, u1) →
  yields s2 l2 t2 → iterator_next t2 = (Raise x2, u2) →
  length l1 = length l2 →
  length l1 < fuel →
  ∃ w1' w2',
    drain fuel self w1 = Some (l1, x1, w1') ∧
    drain fuel self w2 = Some (l2, x2, w2') ∧
    log_records (trace w1') = log_records (trace w2').
Proof.
  intros Hw1 Hw2 Hclk Hreads Hlog Hy1 Hx1 Hy2 Hx2 Hlen Hfuel.
  eexists _, _. split; [by eapply drain_run |].
  split; [eapply drain_run; [done .. | by rewrite <- Hlen]|].
  rewrite !log_records_after_raise. simpl.
  rewrite !log_records_app, !log_records_run_events, Hlog, Hlen. f_equal.
  apply map_ext. intros j. unfold item_record, elapsed. by rewrite Hclk, Hreads.
Qed.

End Further.

(** X1 at the source that raises [ValueError] at its third call: the element
    after the error is still in the upstream iterator. *)
Lemma drain_follows_upstream_witness :
  ∃ w2,
    drain 5 5%positive failing_wrapped = Some (["a"; "b"], OtherError "ValueError", w2) ∧
    iterators w2 !! 1%positive = Some [Return "c"].
Proof.
  edestruct (proj1 (drain_follows_upstream
                      failing_wrapped 5%positive demo_wrapper failing_source 5
                      (conj eq_refl eq_refl)))
    as (w2 & Hdrain & Hits); [vm_compute; reflexivity |].
  exists w2. split; [exact Hdrain |]. rewrite Hits. reflexivity.
Defined.

(** X2 at the same source: four calls. *)
Lemma one_request_per_call_witness :
  ∃ rs w',
    calls 4 5%positive failing_wrapped = Some (rs, w') ∧
    length rs = 4 ∧
    requests (trace w')
    = requests (trace failing_wrapped) ++ map (λ r, (1%positive, r)) rs ∧
    clock_reads w' = clock_reads failing_wrapped + 4 + length (List.filter is_Return rs) ∧
    length (log_records (trace w'))
    = length (log_records (trace failing_wrapped)) + length (List.filter is_Return rs).
Proof.
  apply (one_request_per_call failing_wrapped 5%positive demo_wrapper failing_source 4).
  split; reflexivity.
Defined.

(** X3 at the same source: the records of "a", "b" and "c" are numbered 1, 2
    and 3, the error in between leaves no gap. *)
Lemma positions_are_consecutive_witness :
  ∃ rs w' (es : list float3),
    calls 4 5%positive failing_wrapped = Some (rs, w') ∧
    length es = length (List.filter is_Return rs) ∧
    log_records (trace w')
    = log_records (trace failing_wrapped)
      ++ imap (λ i e, (2%positive, WARNING, message "demo" e (0 + i + 1))) es ∧
    item_number <$> objects w' !! 5%positive = Some (0 + length es).
Proof.
  apply (positions_are_consecutive failing_wrapped 5%positive demo_wrapper failing_source 4).
  split; reflexivity.
Defined.

(** X4 at a wrapper over [itertools.count(7)]. *)
Lemma never_ending_upstream_witness :
  (∀ k, ∃ l w',
     calls k 5%positive counting_wrapped = Some (map Return l, w') ∧
     length l = k ∧
     item_number <$> objects w' !! 5%positive = Some (0 + k) ∧
     length (log_records (trace w'))
     = length (log_records (trace counting_wrapped)) + k) ∧
  (∀ fuel, drain fuel 5%positive counting_wrapped = None).
Proof.
  apply (never_ending_upstream counting_wrapped 5%positive demo_wrapper 7).
  - intros s0. exists s0, (S s0). reflexivity.
  - split; reflexivity.
Defined.

(** X5 at two wrappers over [iter(["a", "b", "c"])]: the first receives "a",
    the second "b"; the first has then yielded 1 element, the second 11. *)
Lemma wrappers_share_the_upstream_witness :
  ∃ w1 w2,
    __next__ 5%positive shared_wrapped = Some (Return "a", w1) ∧
    __next__ 6%positive w1 = Some (Return "b", w2) ∧
    iterators w2 !! 1%positive = Some [Return "c"] ∧
    item_number <$> objects w2 !! 5%positive = Some 1 ∧
    item_number <$> objects w2 !! 6%positive = Some 11.
Proof.
  apply (wrappers_share_the_upstream
           shared_wrapped 5%positive 6%positive demo_wrapper other_wrapper
           demo_source "a" [Return "b"; Return "c"] "b" [Return "c"]);
    first [discriminate | reflexivity].
Defined.

(** X6 at sources that yield "a", "b", "c" and "x", "y", "z". *)
Lemma records_do_not_show_elements_witness :
  ∃ w1' w2',
    drain 4 5%positive demo_wrapped = Some (["a"; "b"; "c"], StopIteration, w1') ∧
    drain 4 5%positive secret_wrapped = Some (["x"; "y"; "z"], StopIteration, w2') ∧
    log_records (trace w1') = log_records (trace w2').
Proof.
  apply (records_do_not_show_elements
           demo_wrapped secret_wrapped 5%positive demo_wrapper
           demo_source (of_list ["x"; "y"; "z"])
           ["a"; "b"; "c"] ["x"; "y"; "z"] [] [] StopIteration StopIteration [] [] 4);
    first [reflexivity | split; reflexivity | repeat econstructor | simpl; lia].
Defined.

(** * Properties of the training script *)

Section Script.

Implicit Types (config : yaml) (tr : list library_call).

Ltac unfold_script :=
  unfold scvi_train, getitem, call, raise, mbind, M_bind, mret, M_ret.

Ltac unfold_script_in H :=
  unfold scvi_train, getitem, call, raise, mbind, M_bind, mret, M_ret in H;
  simpl in H.

Ltac rewrite_lookups :=
  repeat match goal with H : _ !! _ = _ |- _ => rewrite H end.

(** Case analysis on the next look-up of a run [H]. *)
Ltac next_lookup H :=
  match type of H with
  | context [match ?m !! ?k with _ => _ end] =>
      destruct (m !! k) eqn:?; simpl in H
  | context [match ?v with YOther _ => _ | YMap _ => _ end] =>
      is_var v; destruct v; simpl in H
  end.

(** X7.  What the configuration must hold: the script runs to its end, where
    it saves the model, exactly when the configuration is a mapping that has
    [training_plan] and whose sections [census], [hvg], [model] and [train]
    are mappings with every setting the script reads, also [min_genes],
    [n_hidden] and [dropout_rate], which it reads and does not use. *)
Theorem scvi_train_completes_iff config :
  (complete config →
   ∃ tr, scvi_train config [] = Some (Return (), tr) ∧
         last tr = Some (Call_torch_save "scvi.model")) ∧
  (∀ tr, scvi_train config [] = Some (Return (), tr) → complete config).
Proof.
  split.
  - intros [Hall (m & -> & [plan Hplan])]. unfold settings_read in Hall.
    repeat match goal with
           | H : Forall _ (_ :: _) |- _ => apply Forall_cons in H as [? H]
           end.
    unfold setting in *; simpl in *. unfold_script; simpl.
    repeat match goal with
           | H : is_Some (match ?m !! ?k with _ => _ end) |- _ =>
               destruct (m !! k) as [[? | ?] |]; try (by destruct H)
           end.
    repeat match goal with
           | H : is_Some (_ !! _) |- _ => destruct H as [? ->]
           end.
    rewrite Hplan. simpl. eexists. split; reflexivity.
  - intros tr Hrun. unfold_script_in Hrun.
    repeat (next_lookup Hrun; try discriminate).
    split; [| eexists; split; [done |]; eauto].
    unfold settings_read, setting.
    repeat (apply Forall_cons; split; [simpl; rewrite_lookups; eauto |]).
    by apply Forall_nil.
Qed.

(** X8.  Settings without effect: [min_genes], [n_hidden] and [dropout_rate]
    are read and passed to no library call: in a configuration that has such
    a setting, any other value for it gives the same run, call for call. *)
Theorem unused_settings_do_not_matter config section key v :
  (section, key) ∈ settings_unused →
  is_Some (setting config section key) →
  scvi_train (with_setting config section key v) [] = scvi_train config [].
Proof.
  intros Hin Hsome. destruct config as [text | m]; [done |].
  unfold setting in Hsome. unfold with_setting.
  destruct (m !! section) as [[text | sec] |] eqn:Hsec; [done | | done].
  destruct Hsome as [old Hold].
  unfold settings_unused in Hin.
  repeat (apply elem_of_cons in Hin as [[= -> ->] | Hin]);
    [.. | by apply elem_of_nil in Hin];
    unfold_script; simpl;
    rewrite ?lookup_insert_eq, ?lookup_insert_ne, ?Hsec by done; simpl;
    rewrite ?lookup_insert_eq, ?lookup_insert_ne, ?Hold by done; simpl;
    reflexivity.
Qed.

(** X9.  Configuration errors come before training: when the script stops
    on a look-up, whichever it is, it has neither trained the model nor
    saved anything; what it raises is the [KeyError] of a setting it reads
    or of a section, or the [TypeError] of a section that is no mapping. *)
Theorem configuration_errors_precede_training config x tr :
  scvi_train config [] = Some (Raise x, tr) →
  Forall (λ c, is_training c = false) tr ∧
  (x = TypeError ∨
   ∃ key, x = OtherError (KeyError key) ∧
          (key ∈ ["census"; "hvg"; "model"; "train"; "training_plan"] ∨
           key ∈ settings_read.*2)).
Proof.
  intros Hrun. unfold_script_in Hrun.
  destruct config as [text | m]; simpl in Hrun;
    [injection Hrun as <- <-; split; [by repeat constructor | by left] |].
  repeat (next_lookup Hrun;
          try (injection Hrun as <- <-;
               split; [by repeat constructor |];
               first [ by left
                     | right; eexists; split; [done |]; simpl;
                       first [left; by repeat constructor
                             | right; by repeat constructor] ])).
  discriminate.
Qed.

End Script.

(** X7 at a configuration with every setting. *)
Lemma scvi_train_completes_iff_witness :
  ∃ tr, scvi_train example_config [] = Some (Return (), tr) ∧
        last tr = Some (Call_torch_save "scvi.model").
Proof.
  apply (proj1 (scvi_train_completes_iff example_config)).
  split.
  - unfold settings_read. repeat (apply Forall_cons; split; [by eexists |]).
    by apply Forall_nil.
  - eexists. split; [reflexivity | by eexists].
Defined.

(** X8 at the same configuration with another [n_hidden]. *)
Lemma unused_settings_do_not_matter_witness :
  scvi_train (with_setting example_config "model" "n_hidden" (YOther "256")) []
  = scvi_train example_config [].
Proof.
  apply (unused_settings_do_not_matter example_config "model" "n_hidden" (YOther "256")).
  - unfold settings_unused. by repeat constructor.
  - by eexists.
Defined.

(** X9 at the configuration without [dropout_rate]: the data has been
    fetched when the script stops, and nothing has been trained. *)
Lemma configuration_errors_precede_training_witness :
  ∃ tr,
    scvi_train example_config_short []
    = Some (Raise (OtherError (KeyError "dropout_rate")), tr) ∧
    Call_to_anndata "raw" ∈ tr ∧
    Forall (λ c, is_training c = false) tr.
Proof.
  eexists. split; [vm_compute; reflexivity |].
  split; [by repeat constructor |].
  refine (proj1 (configuration_errors_precede_training example_config_short _ _ _)).
  vm_compute; reflexivity.
Defined.
